(** * A shallow embedding of [src/movie-agent-demo/config_manager.py]

    [SecureConfigManager] keeps a Fernet-encrypted JSON configuration in a
    config file and its key in a master key file; [validate_setup_data]
    checks the setup form.  The file system is two optional byte strings
    (the manager's two paths, assumed distinct) plus a fault table saying
    which operations on which path raise [OSError] (a permission or
    availability failure).  A manager instance is its [_cipher] cache. *)

From Stdlib Require Import ZArith String.
From stdpp Require Import base gmap strings countable list.

Open Scope string_scope.
#[local] Set Warnings "-register-all".

(** ** Data *)

Abbreviation bytes := (list Byte.byte).

(** JSON values, as [json.loads] produces them (floats left out). *)
Inductive JValue :=
| JNull
| JBool (b : bool)
| JInt (z : Z)
| JStr (s : string)
| JList (l : list JValue)
| JObj (o : list (string * JValue)).

(** A Python [Dict[str, Any]] holding JSON values. *)
Abbreviation Config := (gmap string JValue).

(** The two files of the manager. *)
Inductive path := ConfigFile | MasterKeyFile.

Inductive fs_op := Read | Write | Unlink.

Record FS := mkFS {
  config_file : option bytes;
  master_key_file : option bytes;
  fault : path -> fs_op -> bool
}.

(** The Python exceptions the code raises or lets through. *)
Inductive exc :=
| OSError            (* open/read/write/unlink failed *)
| InvalidKey         (* ValueError from [Fernet(key)] on a malformed key *)
| InvalidToken       (* [cipher.decrypt] rejected the token *)
| DecodeError        (* UnicodeDecodeError / JSONDecodeError *)
| LoadFailed.        (* ValueError("Failed to load configuration: ...") *)

Inductive res (A : Type) := Ok (a : A) | Exc (e : exc).
Arguments Ok {A} a.
Arguments Exc {A} e.

(** ** Library interfaces

    [cryptography.fernet] and [json] are not part of the repository; the
    manager only relies on their round-trip contracts.  Fernet's key
    generation and IV/timestamp are fixed (a deterministic model). *)
Class Fernet := {
  fernet_key_ok : bytes -> bool;              (* [Fernet(key)] does not raise *)
  generate_key : bytes;                       (* [Fernet.generate_key()] *)
  encrypt : bytes -> bytes -> bytes;          (* key, plaintext *)
  decrypt : bytes -> bytes -> option bytes;   (* [None]: InvalidToken *)
  generate_key_ok : fernet_key_ok generate_key = true;
  decrypt_encrypt : forall k p, fernet_key_ok k = true -> decrypt k (encrypt k p) = Some p
}.

Class Json := {
  (** [json.dumps(config, indent=2).encode('utf-8')] *)
  dumps : Config -> bytes;
  (** [json.loads(b.decode('utf-8'))]; [None] when decoding or parsing raises *)
  loads : bytes -> option Config;
  loads_dumps : forall m, loads (dumps m) = Some m
}.

(** ** The state monad of a manager method: the cache and the file system,
    with Python exceptions.  State changes made before an exception stay. *)
Record St := mkSt { cipher : option bytes; fs : FS }.

Definition M (A : Type) := St -> St * res A.

Definition ret {A} (a : A) : M A := fun s => (s, Ok a).
Definition raise {A} (e : exc) : M A := fun s => (s, Exc e).
Definition bind {A B} (m : M A) (f : A -> M B) : M B :=
  fun s => match m s with
           | (s', Ok a) => f a s'
           | (s', Exc e) => (s', Exc e)
           end.
Definition try_except {A} (m : M A) (h : exc -> M A) : M A :=
  fun s => match m s with
           | (s', Exc e) => h e s'
           | r => r
           end.

Notation "x <-- m ;; k" := (bind m (fun x => k)) (at level 100, m at next level, right associativity).
Notation "m ;;; k" := (bind m (fun _ => k)) (at level 100, right associativity).

Definition file_of (p : path) (f : FS) : option bytes :=
  match p with ConfigFile => config_file f | MasterKeyFile => master_key_file f end.

Definition set_file (p : path) (c : option bytes) (f : FS) : FS :=
  match p with
  | ConfigFile => mkFS c (master_key_file f) (fault f)
  | MasterKeyFile => mkFS (config_file f) c (fault f)
  end.

Definition set_fs (f : FS) (s : St) : St := mkSt (cipher s) f.

(** [Path.exists()] *)
Definition exists_ (p : path) : M bool :=
  fun s => (s, Ok (bool_decide (is_Some (file_of p (fs s))))).

(** [open(p, 'rb').read()] *)
Definition read (p : path) : M bytes :=
  fun s => if fault (fs s) p Read then (s, Exc OSError) else
           match file_of p (fs s) with
           | Some b => (s, Ok b)
           | None => (s, Exc OSError)      (* FileNotFoundError *)
           end.

(** [open(p, 'wb').write(b)] *)
Definition write (p : path) (b : bytes) : M unit :=
  fun s => if fault (fs s) p Write then (s, Exc OSError)
           else (set_fs (set_file p (Some b) (fs s)) s, Ok tt).

(** [Path.unlink()] *)
Definition unlink (p : path) : M unit :=
  fun s => if fault (fs s) p Unlink then (s, Exc OSError) else
           match file_of p (fs s) with
           | Some _ => (set_fs (set_file p None (fs s)) s, Ok tt)
           | None => (s, Exc OSError)
           end.

(** [try: os.chmod(p, 0o600) except Exception: pass]: mode bits are not
    modelled and every failure is swallowed, so it does nothing here. *)
Definition chmod_600 (p : path) : M unit := ret tt.

Definition set_cipher (k : bytes) : M unit := fun s => (mkSt (Some k) (fs s), Ok tt).

(** ** SecureConfigManager *)
Section Manager.
Context `{Fernet} `{Json}.

Definition is_configured : M bool :=
  c <-- exists_ ConfigFile ;;
  if c then exists_ MasterKeyFile else ret false.

Definition _get_or_create_master_key : M bytes :=
  e <-- exists_ MasterKeyFile ;;
  if e then read MasterKeyFile
  else let key := generate_key in
       write MasterKeyFile key ;;;
       chmod_600 MasterKeyFile ;;;
       ret key.

(** The cached Fernet object is represented by its key. *)
Definition _get_cipher : M bytes :=
  fun s => match cipher s with
           | Some k => (s, Ok k)
           | None =>
               (key <-- _get_or_create_master_key ;;
                if fernet_key_ok key then set_cipher key ;;; ret key
                else raise InvalidKey) s
           end.

Definition save_config (config : Config) : M unit :=
  k <-- _get_cipher ;;
  let encrypted := encrypt k (dumps config) in
  write ConfigFile encrypted ;;;
  chmod_600 ConfigFile.

Definition load_config : M (option Config) :=
  c <-- is_configured ;;
  if negb c then ret None else
  try_except
    (k <-- _get_cipher ;;
     encrypted <-- read ConfigFile ;;
     match decrypt k encrypted with
     | None => raise InvalidToken
     | Some decrypted =>
         match loads decrypted with
         | None => raise DecodeError
         | Some config => ret (Some config)
         end
     end)
    (fun _ => raise LoadFailed).

Definition update_config (updates : Config) : M unit :=
  cur <-- load_config ;;
  let current := default ∅ cur in
  save_config (updates ∪ current).

Definition delete_config : M unit :=
  c <-- exists_ ConfigFile ;;
  (if c then unlink ConfigFile else ret tt) ;;;
  k <-- exists_ MasterKeyFile ;;
  if k then unlink MasterKeyFile else ret tt.

End Manager.

(** ** validate_setup_data *)

(** Python truthiness of [data.get(key)]; a missing key gives [None]. *)
Definition truthy (v : option JValue) : bool :=
  match v with
  | None | Some JNull => false
  | Some (JBool b) => b
  | Some (JInt z) => negb (Z.eqb z 0)
  | Some (JStr s) => negb (String.eqb s "")
  | Some (JList l) => negb (bool_decide (l = []))
  | Some (JObj o) => negb (bool_decide (o = []))
  end.

(** [data.get(key) == lit] for a string literal. *)
Definition eq_str (v : option JValue) (lit : string) : bool :=
  match v with Some (JStr s) => String.eqb s lit | _ => false end.

(** [v.startswith(pre)]; [None]: AttributeError on a value that is not a str. *)
Definition startswith (v : JValue) (pre : string) : option bool :=
  match v with JStr s => Some (String.prefix pre s) | _ => None end.

(** The result [(is_valid, error_message)]; [None] when the function raises. *)
Definition validate_setup_data (data : Config) : option (bool * option string) :=
  if negb (truthy (data !! "llm_provider")) then
    Some (false, Some "LLM provider is required") else
  if eq_str (data !! "llm_provider") "groq" && negb (truthy (data !! "groq_api_key")) then
    Some (false, Some "Groq API key is required when using Groq") else
  if eq_str (data !! "llm_provider") "openai" && negb (truthy (data !! "openai_api_key")) then
    Some (false, Some "OpenAI API key is required when using OpenAI") else
  if negb (truthy (data !! "openai_api_key")) then
    Some (false, Some "OpenAI API key is required for embeddings") else
  let openai_ok :=
    match data !! "openai_api_key" with
    | Some v => startswith v "sk-"
    | None => Some true
    end in
  match openai_ok with
  | None => None
  | Some false =>
      Some (false, Some "OpenAI API key format appears invalid (should start with 'sk-')")
  | Some true =>
      let groq_ok :=
        if truthy (data !! "groq_api_key") then
          match data !! "groq_api_key" with
          | Some v => startswith v "gsk_"
          | None => Some true
          end
        else Some true in
      match groq_ok with
      | None => None
      | Some false =>
          Some (false, Some "Groq API key format appears invalid (should start with 'gsk_')")
      | Some true => Some (true, None)
      end
  end.

(** The validator as the spec words it, to be compared with
    [validate_setup_data]: six rules, evaluated in order, the first failing
    one gives [(false, reason)], and [(true, None)] when none fails.  A
    rule is its failure test and its reason.  "Present and non-empty" is
    Python truthiness; [present] is the reading of "is present" in rules 5
    and 6. *)
Definition setup_rule : Type := (Config -> bool) * string.

Fixpoint first_failure (rules : list setup_rule) (d : Config) : bool * option string :=
  match rules with
  | [] => (true, None)
  | (fails, reason) :: rs => if fails d then (false, Some reason) else first_failure rs d
  end.

(** "starts with the literal prefix": only a string does. *)
Definition starts_with_lit (v : option JValue) (pre : string) : bool :=
  match v with Some (JStr s) => String.prefix pre s | _ => false end.

Definition setup_rules (present : option JValue -> bool) : list setup_rule := [
  (fun d => negb (truthy (d !! "llm_provider")),
   "LLM provider is required");
  (fun d => eq_str (d !! "llm_provider") "groq" && negb (truthy (d !! "groq_api_key")),
   "Groq API key is required when using Groq");
  (fun d => eq_str (d !! "llm_provider") "openai" && negb (truthy (d !! "openai_api_key")),
   "OpenAI API key is required when using OpenAI");
  (fun d => negb (truthy (d !! "openai_api_key")),
   "OpenAI API key is required for embeddings");
  (fun d => present (d !! "openai_api_key") && negb (starts_with_lit (d !! "openai_api_key") "sk-"),
   "OpenAI API key format appears invalid (should start with 'sk-')");
  (fun d => present (d !! "groq_api_key") && negb (starts_with_lit (d !! "groq_api_key") "gsk_"),
   "Groq API key format appears invalid (should start with 'gsk_')")
].

(** The literal reading: a key is present when the mapping has it. *)
Definition spec_rules : list setup_rule := setup_rules (fun v => bool_decide (is_Some v)).

(** A value the code's format checks can handle: a string, or a falsy
    value (which they skip). *)
Definition str_or_falsy (v : option JValue) : bool :=
  match v with Some (JStr _) => true | _ => negb (truthy v) end.

(** ** Concrete library instances

    Small instances of the two interfaces, used to run the manager on
    concrete inputs.  The Fernet stand-in prefixes the key and checks it on
    decryption; the JSON stand-in is an injective binary encoding. *)

#[global] Instance byte_eq_dec : EqDecision Byte.byte := Byte.byte_eq_dec.

Definition toy_decrypt (k c : bytes) : option bytes :=
  if bool_decide (take (length k) c = k) then Some (drop (length k) c) else None.

#[global, refine] Instance toy_fernet : Fernet := {
  fernet_key_ok k := bool_decide (length k = 1%nat);
  generate_key := [Byte.x2a];
  encrypt k p := app k p;
  decrypt := toy_decrypt
}.
Proof.
  - reflexivity.
  - intros k p _. unfold toy_decrypt.
    rewrite take_app_length, bool_decide_eq_true_2 by reflexivity.
    rewrite drop_app_length. reflexivity.
Defined.

Fixpoint jv_to_tree (v : JValue) : gen_tree (bool + Z + string) :=
  match v with
  | JNull => GenNode 0 []
  | JBool b => GenLeaf (inl (inl b))
  | JInt z => GenLeaf (inl (inr z))
  | JStr s => GenLeaf (inr s)
  | JList l => GenNode 1 (map jv_to_tree l)
  | JObj o => GenNode 2 (map (fun kv => GenNode 0 [GenLeaf (inr kv.1); jv_to_tree kv.2]) o)
  end.

Fixpoint jv_of_tree (t : gen_tree (bool + Z + string)) : JValue :=
  match t with
  | GenLeaf (inl (inl b)) => JBool b
  | GenLeaf (inl (inr z)) => JInt z
  | GenLeaf (inr s) => JStr s
  | GenNode 1 ts => JList (map jv_of_tree ts)
  | GenNode 2 ts =>
      JObj (map (fun t => match t with
                          | GenNode 0 [GenLeaf (inr k); t'] => (k, jv_of_tree t')
                          | _ => ("", JNull)
                          end) ts)
  | _ => JNull
  end.

Lemma jv_of_to_tree (v : JValue) : jv_of_tree (jv_to_tree v) = v.
Proof.
  revert v. fix IH 1. intros [| b | z | s | l | o]; simpl; try reflexivity.
  - f_equal. revert l. fix IHl 1. intros [| x l]; simpl; [reflexivity |].
    rewrite IH. f_equal. apply IHl.
  - f_equal. revert o. fix IHo 1. intros [| [k x] o]; simpl; [reflexivity |].
    rewrite IH. f_equal. apply IHo.
Qed.

#[global] Instance JValue_eq_dec : EqDecision JValue.
Proof.
  intros x y. destruct (decide (jv_to_tree x = jv_to_tree y)) as [E | E].
  - left. rewrite <- (jv_of_to_tree x), <- (jv_of_to_tree y), E. reflexivity.
  - right. intros ->. apply E. reflexivity.
Defined.

#[global] Instance JValue_countable : Countable JValue :=
  inj_countable' jv_to_tree jv_of_tree jv_of_to_tree.

Fixpoint pos_to_bytes (p : positive) : bytes :=
  match p with
  | xH => []
  | xO p => Byte.x00 :: pos_to_bytes p
  | xI p => Byte.x01 :: pos_to_bytes p
  end.

Fixpoint bytes_to_pos (l : bytes) : option positive :=
  match l with
  | [] => Some xH
  | Byte.x00 :: l => xO <$> bytes_to_pos l
  | Byte.x01 :: l => xI <$> bytes_to_pos l
  | _ => None
  end.

Lemma bytes_to_pos_to_bytes p : bytes_to_pos (pos_to_bytes p) = Some p.
Proof. induction p; simpl; try rewrite IHp; reflexivity. Qed.

#[global, refine] Instance toy_json : Json := {
  dumps m := pos_to_bytes (encode m);
  loads b := bytes_to_pos b ≫= decode
}.
Proof. intros m. rewrite bytes_to_pos_to_bytes. simpl. apply decode_encode. Defined.

(** ** States used in the statements *)

(** What [is_configured()] computes from the file system. *)
Definition configured (f : FS) : bool :=
  bool_decide (is_Some (config_file f)) && bool_decide (is_Some (master_key_file f)).

Definition no_faults (f : FS) : Prop := forall p o, fault f p o = false.

(** The cache agrees with the key file on disk. *)
Definition coherent (s : St) : Prop :=
  forall k, cipher s = Some k -> master_key_file (fs s) = Some k.

(** Every key on disk is one [Fernet(key)] accepts. *)
Definition key_valid `{Fernet} (s : St) : Prop :=
  forall k, master_key_file (fs s) = Some k -> fernet_key_ok k = true.

(** The key that [_get_cipher] hands out in a coherent, fault-free state. *)
Definition key_in_use `{Fernet} (s : St) : bytes :=
  match cipher s with
  | Some k => k
  | None => default generate_key (master_key_file (fs s))
  end.

(** A freshly constructed manager on an empty directory. *)
Definition empty_fs : FS := mkFS None None (fun _ _ => false).
Definition fresh (f : FS) : St := mkSt None f.

(** ** app.py: the Flask layer around the global manager

    The agent library ([movie_agent]) is not part of this repository: the
    app only builds a [MovieAgentConfig] and asks [MovieAgentApp] to start,
    which is a parameter [agent_starts] ([false]: construction or
    [initialize()] raised).  The process environment is a string map. *)

Record MovieAgentConfig := mkAgentConfig {
  mac_llm_provider : JValue;
  mac_llm_model : JValue;
  mac_enable_vision : JValue;
  mac_enable_memory : JValue;
  mac_memory_max_turns : JValue;
  mac_faiss_index_path : JValue;   (* [JNull] for Python's [None] *)
  mac_warmup_on_start : bool;
  mac_verbose : bool
}.

Record AppSt := mkApp {
  mgr : St;
  environ : gmap string string;
  agent_app : option MovieAgentConfig
}.

(** [d.get(k, default)] *)
Definition get_default (d : Config) (k : string) (dflt : JValue) : JValue :=
  default dflt (d !! k).

(** A NUL character in a string. *)
Fixpoint has_nul (s : string) : bool :=
  match s with
  | EmptyString => false
  | String c r => Ascii.eqb c Ascii.zero || has_nul r
  end.

(** [os.environ[k] = d[key]]: [false] when the value is not a str
    (TypeError) or holds an embedded NUL character (ValueError); earlier
    assignments stay. *)
Definition set_env (k : string) (v : option JValue) (env : gmap string string)
    : gmap string string * bool :=
  match v with
  | Some (JStr s) => if has_nul s then (env, false) else (<[k := s]> env, true)
  | _ => (env, false)
  end.

(** The environment-variable part of [_initialize_agent_from_config]. *)
Definition set_provider_env (cd : Config) (env : gmap string string)
    : gmap string string * bool :=
  let llm_provider := get_default cd "llm_provider" (JStr "groq") in
  let '(env1, ok1) :=
    if eq_str (Some llm_provider) "groq" then
      (if truthy (cd !! "groq_api_key")
       then set_env "GROQ_API_KEY" (cd !! "groq_api_key") env else (env, true))
    else if eq_str (Some llm_provider) "openai" then
      (if truthy (cd !! "openai_llm_api_key")
       then set_env "OPENAI_API_KEY" (cd !! "openai_llm_api_key") env
       else if truthy (cd !! "openai_api_key")
       then set_env "OPENAI_API_KEY" (cd !! "openai_api_key") env
       else (env, true))
    else (env, true) in
  if negb ok1 then (env1, false) else
  if truthy (cd !! "openai_api_key")
  then set_env "OPENAI_API_KEY" (cd !! "openai_api_key") env1
  else (env1, true).

Definition agent_config_of (cd : Config) : MovieAgentConfig :=
  mkAgentConfig
    (get_default cd "llm_provider" (JStr "openai"))
    (get_default cd "llm_model" (JStr "gpt-4o-mini"))
    (get_default cd "enable_vision" (JBool true))
    (get_default cd "enable_memory" (JBool true))
    (get_default cd "memory_max_turns" (JInt 10))
    (get_default cd "faiss_index_path" JNull)
    false true.

Inductive response :=
| Redirect (endpoint : string)
| RenderTemplate (name : string)
| JsonStatus (code : Z) (message : string)     (* {"status": ..., "message": ...} *)
| JsonError (code : Z) (error : option string)  (* {"error": ...}, [None] is null *)
| ServerError.                                  (* 500 with str(e) *)

Section App.
Context `{Fernet} `{Json} (agent_starts : MovieAgentConfig -> bool).

Definition _initialize_agent_from_config (st : AppSt) : AppSt :=
  match agent_app st with
  | Some _ => st
  | None =>
      if negb (configured (fs (mgr st))) then st else
      match load_config (mgr st) with
      | (s1, Exc _) => mkApp s1 (environ st) None
      | (s1, Ok None) => mkApp s1 (environ st) None        (* None.get: AttributeError *)
      | (s1, Ok (Some cd)) =>
          let '(env1, ok) := set_provider_env cd (environ st) in
          if negb ok then mkApp s1 env1 None else
          let config := agent_config_of cd in
          if agent_starts config then mkApp s1 env1 (Some config)
          else mkApp s1 env1 None
      end
  end.

Definition index (st : AppSt) : response :=
  if configured (fs (mgr st)) then RenderTemplate "index.html" else Redirect "setup".

Definition setup_get (st : AppSt) : response :=
  if configured (fs (mgr st)) then Redirect "index" else RenderTemplate "setup.html".

(** POST /setup with a JSON object body ([None]: no JSON body). *)
Definition setup_post (body : option Config) (st : AppSt) : AppSt * response :=
  match body with
  | None => (st, JsonError 400 (Some "No JSON data provided"))
  | Some data =>
      if bool_decide (data = ∅) then (st, JsonError 400 (Some "No JSON data provided")) else
      match validate_setup_data data with
      | None => (st, ServerError)
      | Some (false, error_message) => (st, JsonError 400 error_message)
      | Some (true, _) =>
          match save_config data (mgr st) with
          | (s1, Exc _) => (mkApp s1 (environ st) (agent_app st), ServerError)
          | (s1, Ok _) =>
              (_initialize_agent_from_config (mkApp s1 (environ st) (agent_app st)),
               JsonStatus 200 "Configuration saved")
          end
      end
  end.

Definition reset_config (st : AppSt) : AppSt * response :=
  match delete_config (mgr st) with
  | (s1, Ok _) => (mkApp s1 (environ st) (agent_app st), JsonStatus 200 "Configuration reset")
  | (s1, Exc _) => (mkApp s1 (environ st) (agent_app st), ServerError)
  end.


End App.

(** The poster route's history update: [append], then keep the last three
    ([poster_history[-3:]]) when it grew beyond three. *)
Definition poster_history_push {A} (history : option (list A)) (poster_state : A) : list A :=
  let h := app (default [] history) [poster_state] in
  if Nat.ltb 3 (length h) then drop (length h - 3) h else h.

(** ** path_resolver.py: ServicePathResolver

    A path is its list of components.  The [pathlib]/[os.path] primitives
    are parameters: [path_exists] is [Path.exists()] ([None]: OSError),
    [path_resolve] is [Path.resolve()] ([None]: OSError or ValueError),
    [os_exists] is [os.path.exists], [abspath] is [os.path.abspath]. *)
Abbreviation P := (list string).

Definition parent (p : P) : P := removelast p.

Definition service_suffix : P := ["movie-agent-service"; "src"].

Section Resolver.
Context (path_exists : P -> option bool) (path_resolve : P -> option P)
        (os_exists : P -> bool) (abspath : P -> P).

(** The [except (OSError, ValueError)] branch. *)
Definition resolve_fallback (base_file : P) : option P * option P :=
  let base_dir := parent (abspath base_file) in
  let service_path := app (parent base_dir) service_suffix in
  let service_path := if os_exists service_path then service_path
                      else app base_dir service_suffix in
  if os_exists service_path then (Some (abspath service_path), Some (abspath service_path))
  else (None, None).

(** [resolve()] on the resolver state [_resolved_path]; the result and the
    new [_resolved_path]. *)
Definition resolve (base_file : P) (_resolved_path : option P) : option P * option P :=
  match _resolved_path with
  | Some p => (Some p, Some p)
  | None =>
      match path_resolve base_file with
      | None => resolve_fallback base_file
      | Some current_file =>
          let first := app (parent (parent current_file)) service_suffix in
          match path_exists first with
          | None => resolve_fallback base_file
          | Some e1 =>
              let service_path := if e1 then first else app (parent current_file) service_suffix in
              match path_exists service_path with
              | None => resolve_fallback base_file
              | Some false => (None, None)
              | Some true =>
                  match path_resolve service_path with
                  | None => resolve_fallback base_file
                  | Some r => (Some r, Some r)
                  end
              end
          end
      end
  end.

(** [add_to_sys_path()]: the result, the new cache and the new [sys.path]. *)
Definition add_to_sys_path (base_file : P) (_resolved_path : option P) (sys_path : list P)
    : bool * option P * list P :=
  match resolve base_file _resolved_path with
  | (Some p, c) => (true, c, p :: sys_path)
  | (None, c) => (false, c, sys_path)
  end.

End Resolver.

(** ** General lemmas *)
Section Lemmas.
Context `{Fernet} `{Json}.

Lemma is_configured_eq s : is_configured s = (s, Ok (configured (fs s))).
Proof.
  unfold is_configured, bind, exists_, configured, file_of.
  destruct (bool_decide (is_Some (config_file (fs s)))); reflexivity.
Qed.

Lemma load_config_unconfigured s :
  configured (fs s) = false -> load_config s = (s, Ok None).
Proof. intros Hc. unfold load_config, bind at 1. rewrite is_configured_eq, Hc. reflexivity. Qed.

Lemma get_cipher_coherent s :
  coherent s -> key_valid s -> no_faults (fs s) ->
  _get_cipher s =
    (mkSt (Some (key_in_use s)) (set_file MasterKeyFile (Some (key_in_use s)) (fs s)),
     Ok (key_in_use s))
  /\ fernet_key_ok (key_in_use s) = true.
Proof.
  destruct s as [c [cf kf flt]]. unfold coherent, key_valid, no_faults, key_in_use.
  simpl. intros Hco Hkv Hnf.
  destruct c as [k |].
  - pose proof (Hco k eq_refl) as Hk. rewrite Hk. split; [reflexivity | apply Hkv, Hk].
  - unfold _get_cipher, _get_or_create_master_key, bind, exists_, read, write, chmod_600,
      set_cipher, ret, raise, file_of. simpl.
    destruct kf as [k |]; simpl; rewrite ?Hnf.
    + rewrite (Hkv k eq_refl). split; reflexivity.
    + rewrite generate_key_ok. split; reflexivity.
Qed.

Lemma save_config_coherent s m :
  coherent s -> key_valid s -> no_faults (fs s) ->
  save_config m s =
    (mkSt (Some (key_in_use s))
          (mkFS (Some (encrypt (key_in_use s) (dumps m))) (Some (key_in_use s)) (fault (fs s))),
     Ok tt)
  /\ fernet_key_ok (key_in_use s) = true.
Proof.
  intros Hco Hkv Hnf. destruct (get_cipher_coherent s Hco Hkv Hnf) as [Hg Hok].
  split; [| exact Hok].
  unfold save_config, bind at 1. rewrite Hg.
  unfold bind, write, chmod_600, ret. simpl. rewrite Hnf. reflexivity.
Qed.

Lemma load_config_stored s k m :
  master_key_file (fs s) = Some k ->
  config_file (fs s) = Some (encrypt k (dumps m)) ->
  fernet_key_ok k = true ->
  (cipher s = None \/ cipher s = Some k) ->
  no_faults (fs s) ->
  load_config s = (mkSt (Some k) (fs s), Ok (Some m)).
Proof.
  destruct s as [c [cf kf flt]]; simpl. intros -> -> Hok Hc Hnf.
  unfold no_faults in Hnf; simpl in Hnf.
  unfold load_config, is_configured, _get_cipher, _get_or_create_master_key, bind,
    try_except, exists_, read, set_cipher, ret, raise, file_of, configured. simpl.
  destruct Hc as [-> | ->]; simpl; rewrite ?Hnf, ?Hok; simpl;
    rewrite ?Hnf, decrypt_encrypt, loads_dumps by exact Hok; reflexivity.
Qed.

End Lemmas.

(** Positive round trips from a state whose cache agrees with the disk. *)
Section RoundTrip.
Context `{Fernet} `{Json}.

Lemma save_then_load_coherent s m :
  coherent s -> key_valid s -> no_faults (fs s) ->
  snd ((save_config m ;;; load_config) s) = Ok (Some m).
Proof.
  intros Hco Hkv Hnf. destruct (save_config_coherent s m Hco Hkv Hnf) as [Hs Hok].
  unfold bind at 1. rewrite Hs.
  rewrite (load_config_stored _ (key_in_use s) m); auto.
Qed.

Lemma save_then_fresh_load_coherent s m :
  coherent s -> key_valid s -> no_faults (fs s) ->
  snd (load_config (fresh (fs (fst (save_config m s))))) = Ok (Some m).
Proof.
  intros Hco Hkv Hnf. destruct (save_config_coherent s m Hco Hkv Hnf) as [Hs Hok].
  rewrite Hs. simpl. rewrite (load_config_stored _ (key_in_use s) m); auto.
Qed.

Lemma save_configures_coherent s m :
  coherent s -> key_valid s -> no_faults (fs s) ->
  configured (fs (fst (save_config m s))) = true.
Proof.
  intros Hco Hkv Hnf. destruct (save_config_coherent s m Hco Hkv Hnf) as [Hs Hok].
  rewrite Hs. reflexivity.
Qed.

End RoundTrip.

(** ** The claims *)

(** The state of a long-lived manager after a first save and a reset:
    [_cipher] still holds the key whose file [delete_config] removed. *)
Definition after_reset `{Fernet} `{Json} (m1 : Config) : St :=
  fst ((save_config m1 ;;; delete_config) (fresh empty_fs)).

Section Claims.
Context `{Fernet} `{Json}.

Lemma after_reset_eq m1 :
  after_reset m1 = mkSt (Some generate_key) empty_fs.
Proof.
  unfold after_reset. cbv -[encrypt dumps generate_key fernet_key_ok].
  rewrite generate_key_ok. reflexivity.
Qed.

(** C1: [save_config(m)] then [load_config()] on the same manager need not
    give back [m]: after a reset, the cached cipher makes [save_config] skip
    the key file, so [load_config] reports "not configured" ([None]). *)
Theorem save_load_after_reset (m1 m2 : Config) :
  snd ((save_config m2 ;;; load_config) (after_reset m1)) = Ok None.
Proof. rewrite after_reset_eq. reflexivity. Qed.

(** C9: after a reset, a successful [save_config] writes the config file
    but no key file, so [is_configured()] is false. *)
Theorem save_after_reset_not_configured (m1 m2 : Config) :
  save_config m2 (after_reset m1) =
    (mkSt (Some generate_key)
          (mkFS (Some (encrypt generate_key (dumps m2))) None (fun _ _ => false)), Ok tt)
  /\ configured (fs (fst (save_config m2 (after_reset m1)))) = false.
Proof. rewrite after_reset_eq. split; reflexivity. Qed.

(** C8: a second, fresh manager on the files left by a save after a reset
    loads nothing: there is no key file to read. *)
Theorem fresh_instance_after_reset (m1 m2 : Config) :
  let f := fs (fst (save_config m2 (after_reset m1))) in
  load_config (fresh f) = (fresh f, Ok None).
Proof. rewrite after_reset_eq. reflexivity. Qed.

(** C4: two [update_config] calls after a reset: the second one sees
    "not configured" again, so the stored blob holds only the second update
    and the first is lost. *)
Theorem updates_after_reset (m1 : Config) :
  let s' := fst ((update_config {[ "a" := JInt 1 ]} ;;; update_config {[ "b" := JInt 2 ]})
                   (after_reset m1)) in
  config_file (fs s') = Some (encrypt generate_key (dumps ({[ "b" := JInt 2 ]} ∪ ∅)))
  /\ master_key_file (fs s') = None
  /\ snd (load_config s') = Ok None.
Proof. rewrite after_reset_eq. split; [| split]; reflexivity. Qed.

End Claims.

Section LoadDelete.
Context `{Fernet} `{Json}.

(** C2: [load_config()] returns [None] exactly when the manager is not
    configured; otherwise it either returns the mapping that the stored blob
    decrypts and parses to under the key in use, or raises the
    "Failed to load configuration" ValueError, which it also raises whenever
    decryption or parsing of the stored blob fails. *)
Theorem load_config_outcomes (s : St) :
  (configured (fs s) = false -> load_config s = (s, Ok None)) /\
  (configured (fs s) = true ->
     match snd (load_config s) with
     | Ok None => False
     | Ok (Some m) =>
         exists k b d,
           (cipher s = Some k \/ (cipher s = None /\ master_key_file (fs s) = Some k)) /\
           config_file (fs s) = Some b /\ decrypt k b = Some d /\ loads d = Some m
     | Exc e => e = LoadFailed
     end) /\
  (forall k b,
     configured (fs s) = true ->
     (cipher s = Some k \/
      (cipher s = None /\ master_key_file (fs s) = Some k /\ fernet_key_ok k = true /\
       fault (fs s) MasterKeyFile Read = false)) ->
     config_file (fs s) = Some b -> fault (fs s) ConfigFile Read = false ->
     (decrypt k b = None \/ exists d, decrypt k b = Some d /\ loads d = None) ->
     snd (load_config s) = Exc LoadFailed).
Proof.
  destruct s as [c [cf kf flt]]. unfold configured; simpl. split; [| split].
  - intros Hc. unfold load_config, bind at 1. rewrite is_configured_eq. simpl.
    unfold configured; simpl. rewrite Hc. reflexivity.
  - intros Hc. unfold load_config, bind at 1. rewrite is_configured_eq.
    unfold configured; simpl. try rewrite Hc. simpl.
    unfold try_except, _get_cipher, _get_or_create_master_key, bind, exists_, read,
      set_cipher, ret, raise, file_of; simpl.
    destruct cf as [b |]; [| discriminate].
    destruct kf as [k' |]; [| rewrite andb_false_r in Hc; discriminate].
    destruct c as [k |]; simpl.
    + destruct (flt ConfigFile Read); simpl; [reflexivity |].
      destruct (decrypt k b) as [d |] eqn:Hd; simpl; [| reflexivity].
      destruct (loads d) as [m |] eqn:Hl; simpl; [| reflexivity].
      exists k, b, d. auto.
    + destruct (flt MasterKeyFile Read); simpl; [reflexivity |].
      destruct (fernet_key_ok k'); simpl; [| reflexivity].
      destruct (flt ConfigFile Read); simpl; [reflexivity |].
      destruct (decrypt k' b) as [d |] eqn:Hd; simpl; [| reflexivity].
      destruct (loads d) as [m |] eqn:Hl; simpl; [| reflexivity].
      exists k', b, d. auto.
  - intros k b Hc Hk Hb Hrd Hfail. subst cf.
    destruct kf as [k' |]; [| rewrite andb_false_r in Hc; discriminate].
    unfold load_config, bind at 1. rewrite is_configured_eq.
    unfold configured; simpl. try rewrite Hc. simpl.
    unfold try_except, _get_cipher, _get_or_create_master_key, bind, exists_, read,
      set_cipher, ret, raise, file_of; simpl.
    destruct Hk as [-> | (-> & Hk' & Hok & Hrk)]; simpl;
      [| injection Hk' as <-; rewrite Hrk, Hok; simpl]; rewrite Hrd;
      destruct Hfail as [-> | (d & -> & Hl)]; simpl; rewrite ?Hl; reflexivity.
Qed.

(** C3: a [delete_config()] that returns leaves neither file, so
    [is_configured()] is false and [load_config()] returns [None]; with no
    unlink failure on a present file it removes what is there and skips what
    is absent, keeping the cache. *)
Theorem delete_config_spec (s : St) :
  (forall s', delete_config s = (s', Ok tt) ->
     config_file (fs s') = None /\ master_key_file (fs s') = None /\
     configured (fs s') = false /\ load_config s' = (s', Ok None)) /\
  ((config_file (fs s) = None \/ fault (fs s) ConfigFile Unlink = false) ->
   (master_key_file (fs s) = None \/ fault (fs s) MasterKeyFile Unlink = false) ->
   delete_config s = (mkSt (cipher s) (mkFS None None (fault (fs s))), Ok tt)).
Proof.
  assert (Hdel : forall s',
            delete_config s = (s', Ok tt) ->
            config_file (fs s') = None /\ master_key_file (fs s') = None).
  { intros s'. destruct s as [c [cf kf flt]].
    unfold delete_config, bind, exists_, unlink, ret, set_fs, set_file, file_of; simpl.
    destruct cf as [b |]; simpl;
      [destruct (flt ConfigFile Unlink); simpl; [discriminate |] |];
      destruct kf as [k |]; simpl;
      try (destruct (flt MasterKeyFile Unlink); simpl; [discriminate |]);
      intros E; injection E as <-; auto. }
  split.
  - intros s' E. destruct (Hdel s' E) as [Hc Hk].
    assert (Hn : configured (fs s') = false) by (unfold configured; rewrite Hc; reflexivity).
    repeat split; auto. apply load_config_unconfigured, Hn.
  - destruct s as [c [cf kf flt]]; simpl. intros Hc Hk.
    unfold delete_config, bind, exists_, unlink, ret, set_fs, set_file, file_of; simpl.
    destruct Hc as [-> | Hc]; [| destruct cf as [b |]; simpl; [rewrite Hc |]];
      simpl; (destruct Hk as [-> | Hk]; [| destruct kf as [k |]; simpl; [rewrite Hk |]]);
      reflexivity.
Qed.

(** C10: when one of the two files is missing, [load_config()] returns
    [None] and leaves the cache and both files untouched; in particular no
    key file is generated. *)
Theorem load_config_unconfigured_frame (s : St) :
  config_file (fs s) = None \/ master_key_file (fs s) = None ->
  load_config s = (s, Ok None).
Proof.
  intros Hm. apply load_config_unconfigured. unfold configured.
  destruct Hm as [-> | ->]; [reflexivity | apply andb_false_r].
Qed.

End LoadDelete.

(** ** Which exceptions each method can raise *)
Section Errors.
Context `{Fernet} `{Json}.

Ltac unfold_io :=
  unfold _get_cipher, _get_or_create_master_key, bind, exists_, read, write, unlink,
    chmod_600, set_cipher, ret, raise, file_of, set_fs, set_file in *.

Lemma get_cipher_errors s s' e :
  _get_cipher s = (s', Exc e) -> e = OSError \/ e = InvalidKey.
Proof.
  destruct s as [c [cf kf flt]]. unfold_io. simpl.
  repeat (case_match; simpl in *); intros E; simplify_eq; auto.
Qed.

Lemma save_config_errors m s s' e :
  save_config m s = (s', Exc e) -> e = OSError \/ e = InvalidKey.
Proof.
  intros E. unfold save_config, bind, write, chmod_600, ret in E.
  destruct (_get_cipher s) as [s1 [k | e1]] eqn:Hg.
  - destruct (fault (fs s1) ConfigFile Write); simplify_eq; auto.
  - simplify_eq. eapply get_cipher_errors; eauto.
Qed.



End Errors.

Lemma bind_ok {A B} (m : M A) (k : A -> M B) s s' a :
  m s = (s', Ok a) -> bind m k s = k a s'.
Proof. intros E. unfold bind. rewrite E. reflexivity. Qed.

(** C4 companion: on a manager whose cache agrees with the disk and which
    is not configured yet, two updates merge. *)
Lemma two_updates_merge_coherent `{Fernet} `{Json} (s : St) (u1 u2 : Config) :
  coherent s -> key_valid s -> no_faults (fs s) -> config_file (fs s) = None ->
  snd ((update_config u1 ;;; update_config u2 ;;; load_config) s) = Ok (Some (u2 ∪ (u1 ∪ ∅))).
Proof.
  intros Hco Hkv Hnf Hcf.
  assert (Hl : load_config s = (s, Ok None))
    by (apply load_config_unconfigured; unfold configured; rewrite Hcf; reflexivity).
  destruct (save_config_coherent s (u1 ∪ ∅) Hco Hkv Hnf) as [Hs Hok].
  set (k := key_in_use s) in *.
  set (s1 := mkSt (Some k) (mkFS (Some (encrypt k (dumps (u1 ∪ ∅)))) (Some k) (fault (fs s)))) in *.
  assert (Hu1 : update_config u1 s = (s1, Ok tt))
    by (unfold update_config; rewrite (bind_ok _ _ _ _ _ Hl); exact Hs).
  rewrite (bind_ok _ _ _ _ _ Hu1).
  assert (Hl1 : load_config s1 = (s1, Ok (Some (u1 ∪ ∅))))
    by (apply (load_config_stored s1 k); simpl; auto).
  assert (Hco1 : coherent s1) by (intros k' E; simpl in *; congruence).
  assert (Hkv1 : key_valid s1) by (intros k' E; simpl in *; congruence).
  destruct (save_config_coherent s1 (u2 ∪ (u1 ∪ ∅)) Hco1 Hkv1 Hnf) as [Hs1 _].
  assert (Hu2 : update_config u2 s1 = (_, Ok tt))
    by (unfold update_config; rewrite (bind_ok _ _ _ _ _ Hl1); exact Hs1).
  rewrite (bind_ok _ _ _ _ _ Hu2).
  rewrite (load_config_stored _ k (u2 ∪ (u1 ∪ ∅))); simpl; auto.
Qed.

Section IOErrors.
Context `{Fernet} `{Json}.


End IOErrors.

(** ** validate_setup_data *)

(** C5 (as amended): on every input whose [openai_api_key] and
    [groq_api_key] are strings or falsy, the result is that of the six rules
    in order with the first failure deciding, where rules 5 and 6 apply
    when the key is truthy (so an empty or [null] [groq_api_key] is
    skipped); a truthy key that is not a string makes the validator raise
    once the rules before its format check pass; and the four inputs of the
    spec give the stated results, as do the six rules read literally. *)
Theorem validate_setup_data_first_failure :
  (forall d : Config,
     str_or_falsy (d !! "openai_api_key") = true -> str_or_falsy (d !! "groq_api_key") = true ->
     validate_setup_data d = Some (first_failure (setup_rules (fun v => truthy v)) d)) /\
  (forall d : Config,
     str_or_falsy (d !! "openai_api_key") = false ->
     first_failure (take 4 (setup_rules (fun v => truthy v))) d = (true, None) ->
     validate_setup_data d = None) /\
  (forall d : Config,
     str_or_falsy (d !! "groq_api_key") = false ->
     first_failure (take 5 (setup_rules (fun v => truthy v))) d = (true, None) ->
     validate_setup_data d = None) /\
  (validate_setup_data ∅ = Some (false, Some "LLM provider is required") /\
   first_failure spec_rules ∅ = (false, Some "LLM provider is required")) /\
  (validate_setup_data {[ "llm_provider" := JStr "groq" ]} =
     Some (false, Some "Groq API key is required when using Groq") /\
   first_failure spec_rules {[ "llm_provider" := JStr "groq" ]} =
     (false, Some "Groq API key is required when using Groq")) /\
  (let d : Config := <[ "llm_provider" := JStr "groq" ]> (<[ "groq_api_key" := JStr "gsk_abc" ]>
                       {[ "openai_api_key" := JStr "bad" ]}) in
   validate_setup_data d =
     Some (false, Some "OpenAI API key format appears invalid (should start with 'sk-')") /\
   first_failure spec_rules d =
     (false, Some "OpenAI API key format appears invalid (should start with 'sk-')")) /\
  (let d : Config := <[ "llm_provider" := JStr "openai" ]> {[ "openai_api_key" := JStr "sk-valid123" ]} in
   validate_setup_data d = Some (true, None) /\ first_failure spec_rules d = (true, None)).
Proof.
  split; [| split; [| split]].
  - intros d. unfold validate_setup_data, setup_rules, first_failure, starts_with_lit.
    destruct (d !! "openai_api_key") as [[] |], (d !! "groq_api_key") as [[] |]; simpl;
      repeat match goal with
             | |- context [truthy ?x] => destruct (truthy x)
             | |- context [eq_str ?x ?l] => destruct (eq_str x l)
             | |- context [String.eqb ?a ?b] => destruct (String.eqb a b)
             | |- context [String.prefix ?a ?b] => destruct (String.prefix a b)
             | |- context [Z.eqb ?a ?b] => destruct (Z.eqb a b)
             | |- context [bool_decide ?P] => destruct (bool_decide P)
             | b : bool |- _ => destruct b
             end; simpl; intros; first [reflexivity | discriminate].
  - intros d Ho H4. unfold setup_rules in H4; simpl in H4.
    unfold validate_setup_data.
    destruct (negb (truthy (d !! "llm_provider"))); [discriminate |].
    destruct (eq_str _ "groq" && _); [discriminate |].
    destruct (eq_str _ "openai" && _); [discriminate |].
    destruct (negb (truthy (d !! "openai_api_key"))) eqn:E4; [discriminate |].
    destruct (d !! "openai_api_key") as [[] |]; simpl in *; congruence.
  - intros d Hg H5. unfold setup_rules in H5; simpl in H5.
    unfold validate_setup_data.
    destruct (negb (truthy (d !! "llm_provider"))); [discriminate |].
    destruct (eq_str _ "groq" && _); [discriminate |].
    destruct (eq_str _ "openai" && _); [discriminate |].
    destruct (negb (truthy (d !! "openai_api_key"))) eqn:E4; [discriminate |].
    apply negb_false_iff in E4. rewrite E4 in H5. simpl in H5.
    destruct (d !! "openai_api_key") as [[] |]; simpl in *; try discriminate;
      destruct (String.prefix "sk-" _); simpl in *; try discriminate.
    destruct (d !! "groq_api_key") as [[] |]; simpl in *; try congruence;
      apply negb_false_iff in Hg; rewrite Hg; reflexivity.
  - repeat split; vm_compute; reflexivity.
Qed.

(** C6: [validate_setup_data] is a function of its input alone, and only of
    the values at [llm_provider], [groq_api_key] and [openai_api_key]: two
    inputs that agree there (in particular two equal inputs) get the same
    result. *)
Theorem validate_setup_data_deterministic (d1 d2 : Config) :
  d1 !! "llm_provider" = d2 !! "llm_provider" ->
  d1 !! "groq_api_key" = d2 !! "groq_api_key" ->
  d1 !! "openai_api_key" = d2 !! "openai_api_key" ->
  validate_setup_data d1 = validate_setup_data d2.
Proof. intros H1 H2 H3. unfold validate_setup_data. rewrite H1, H2, H3. reflexivity. Qed.

Lemma validate_setup_data_deterministic_witness :
  validate_setup_data (<[ "llm_provider" := JStr "openai" ]> {[ "openai_api_key" := JStr "sk-x" ]})
  = validate_setup_data (<[ "enable_vision" := JBool true ]>
      (<[ "llm_provider" := JStr "openai" ]> {[ "openai_api_key" := JStr "sk-x" ]})).
Proof. apply validate_setup_data_deterministic; vm_compute; reflexivity. Defined.

(** C5 as stated fails: read literally, rule 5 turns a non-string
    [openai_api_key] into a format warning, where the code raises
    (AttributeError on [startswith]); and rule 6 rejects a present but empty
    [groq_api_key], which the code skips. *)
Lemma validate_setup_data_not_literal_rules :
  let d1 : Config := <[ "llm_provider" := JStr "openai" ]> {[ "openai_api_key" := JInt 5 ]} in
  let d2 : Config := <[ "llm_provider" := JStr "openai" ]>
                       (<[ "groq_api_key" := JStr "" ]> {[ "openai_api_key" := JStr "sk-x" ]}) in
  validate_setup_data d1 = None /\
  first_failure spec_rules d1 =
    (false, Some "OpenAI API key format appears invalid (should start with 'sk-')") /\
  validate_setup_data d2 = Some (true, None) /\
  first_failure spec_rules d2 =
    (false, Some "Groq API key format appears invalid (should start with 'gsk_')").
Proof. vm_compute. repeat split; reflexivity. Qed.

Lemma validate_setup_data_first_failure_witness :
  let d : Config := <[ "llm_provider" := JStr "openai" ]>
                      (<[ "groq_api_key" := JStr "" ]> {[ "openai_api_key" := JStr "sk-x" ]}) in
  validate_setup_data d = Some (first_failure (setup_rules (fun v => truthy v)) d).
Proof. apply (proj1 validate_setup_data_first_failure); reflexivity. Defined.

(** ** Concrete runs with the stand-in libraries *)

Definition no_fault : path -> fs_op -> bool := fun _ _ => false.
Definition cfg_a : Config := {[ "a" := JInt 1 ]}.

(** A stored configuration whose first ciphertext byte was altered. *)
Definition s_tampered : St :=
  mkSt None (mkFS (Some (Byte.x2b :: dumps cfg_a)) (Some [Byte.x2a]) no_fault).

Lemma load_config_outcomes_witness : snd (load_config s_tampered) = Exc LoadFailed.
Proof.
  apply (proj2 (proj2 (load_config_outcomes s_tampered)) [Byte.x2a] (Byte.x2b :: dumps cfg_a)).
  - reflexivity.
  - right. vm_compute. auto.
  - reflexivity.
  - reflexivity.
  - left. vm_compute. reflexivity.
Defined.

Lemma delete_config_spec_witness :
  delete_config (mkSt (Some [Byte.x2a]) (mkFS None (Some [Byte.x2a]) no_fault)) =
    (mkSt (Some [Byte.x2a]) (mkFS None None no_fault), Ok tt).
Proof.
  apply (proj2 (delete_config_spec (mkSt (Some [Byte.x2a]) (mkFS None (Some [Byte.x2a]) no_fault))));
    simpl; auto.
Defined.

Lemma load_config_unconfigured_frame_witness :
  load_config (mkSt None (mkFS (Some [Byte.x00]) None no_fault)) =
    (mkSt None (mkFS (Some [Byte.x00]) None no_fault), Ok None).
Proof. apply load_config_unconfigured_frame. right. reflexivity. Defined.




(** ** Further properties of the manager *)
Section ManagerMore.
Context `{Fernet} `{Json}.

Ltac unfold_mgr :=
  unfold load_config, save_config, update_config, delete_config, is_configured,
    _get_cipher, _get_or_create_master_key, bind, try_except, exists_, read, write,
    unlink, chmod_600, set_cipher, ret, raise, file_of, set_fs, set_file in *.

(** The file system and cache after [load_config]. *)
Lemma load_config_fs_cache s s' r :
  load_config s = (s', r) ->
  fs s' = fs s /\
  (cipher s' = cipher s \/ (cipher s = None /\ cipher s' = master_key_file (fs s))).
Proof.
  destruct s as [c [cf kf flt]]. unfold_mgr. simpl.
  destruct cf, kf, c; simpl;
    repeat (case_match; simpl in *); intros E; simplify_eq; simpl; auto.
Qed.

(** [load_config] never creates, changes or removes a file; the only state
    it changes is the cache, filled from the key file on disk. *)
Lemma load_config_frame s s' r :
  load_config s = (s', r) ->
  fs s' = fs s /\
  (cipher s' = cipher s \/ (cipher s = None /\ cipher s' = master_key_file (fs s))).
Proof. apply load_config_fs_cache. Qed.

(** [save_config] never regenerates or changes a key file that exists. *)
Lemma save_config_keeps_key_file m s s' r k :
  master_key_file (fs s) = Some k -> save_config m s = (s', r) ->
  master_key_file (fs s') = Some k.
Proof.
  destruct s as [c [cf kf flt]]. simpl. intros ->. unfold_mgr. simpl.
  destruct c; simpl;
    repeat (case_match; simpl in *); intros E; simplify_eq; simpl; auto.
Qed.

(** Two saves do not merge: the second mapping replaces the first. *)
Lemma save_save_load_coherent s m1 m2 :
  coherent s -> key_valid s -> no_faults (fs s) ->
  snd ((save_config m1 ;;; save_config m2 ;;; load_config) s) = Ok (Some m2).
Proof.
  intros Hco Hkv Hnf. destruct (save_config_coherent s m1 Hco Hkv Hnf) as [Hs Hok].
  rewrite (bind_ok _ _ _ _ _ Hs).
  set (k := key_in_use s) in *.
  set (s1 := mkSt (Some k) (mkFS (Some (encrypt k (dumps m1))) (Some k) (fault (fs s)))) in *.
  assert (Hco1 : coherent s1) by (intros k' E; simpl in *; congruence).
  assert (Hkv1 : key_valid s1) by (intros k' E; simpl in *; congruence).
  destruct (save_config_coherent s1 m2 Hco1 Hkv1 Hnf) as [Hs1 _].
  rewrite (bind_ok _ _ _ _ _ Hs1).
  rewrite (load_config_stored _ k m2); simpl; auto.
Qed.


(** On a stored configuration [m], [update_config(u)] stores [u] merged
    over [m]: keys of [u] take their new value, the others keep theirs. *)
Lemma update_config_merges s k m u :
  master_key_file (fs s) = Some k ->
  config_file (fs s) = Some (encrypt k (dumps m)) ->
  fernet_key_ok k = true ->
  (cipher s = None \/ cipher s = Some k) ->
  no_faults (fs s) ->
  snd ((update_config u ;;; load_config) s) = Ok (Some (u ∪ m)) /\
  (forall x, (u ∪ m) !! x = match u !! x with Some v => Some v | None => m !! x end).
Proof.
  intros Hk Hc Hok Hca Hnf. split.
  - pose proof (load_config_stored s k m Hk Hc Hok Hca Hnf) as Hl.
    set (s1 := mkSt (Some k) (fs s)) in *.
    assert (Hco1 : coherent s1) by (intros k' E; simpl in *; congruence).
    assert (Hkv1 : key_valid s1) by (intros k' E; simpl in *; congruence).
    destruct (save_config_coherent s1 (u ∪ m) Hco1 Hkv1 Hnf) as [Hs1 _].
    assert (Hu : update_config u s = (_, Ok tt))
      by (unfold update_config; rewrite (bind_ok _ _ _ _ _ Hl); exact Hs1).
    rewrite (bind_ok _ _ _ _ _ Hu).
    rewrite (load_config_stored _ k (u ∪ m)); simpl; auto.
  - intros x. rewrite lookup_union. destruct (u !! x), (m !! x); reflexivity.
Qed.

(** Resetting twice is the same as resetting once: the second
    [delete_config] finds no file and does nothing. *)
Lemma delete_config_idempotent s :
  no_faults (fs s) -> (delete_config ;;; delete_config) s = delete_config s.
Proof.
  destruct s as [c [cf kf flt]]. unfold no_faults. simpl. intros Hnf.
  unfold delete_config, bind, exists_, unlink, ret, file_of, set_fs, set_file. simpl.
  destruct cf, kf; simpl; rewrite ?Hnf; simpl; rewrite ?Hnf; reflexivity.
Qed.

End ManagerMore.

(** ** Further properties of validate_setup_data *)

(** An accepted setup has a provider, an OpenAI key that is a string
    starting with [sk-], a Groq key (when given) that is a string starting
    with [gsk_], and a Groq key whenever the provider is Groq. *)
Lemma validate_setup_data_accepts (d : Config) :
  validate_setup_data d = Some (true, None) ->
  truthy (d !! "llm_provider") = true /\
  (exists s, d !! "openai_api_key" = Some (JStr s) /\ String.prefix "sk-" s = true) /\
  (truthy (d !! "groq_api_key") = true ->
     exists s, d !! "groq_api_key" = Some (JStr s) /\ String.prefix "gsk_" s = true) /\
  (eq_str (d !! "llm_provider") "groq" = true -> truthy (d !! "groq_api_key") = true).
Proof.
  unfold validate_setup_data.
  destruct (truthy (d !! "llm_provider")) eqn:E1; simpl; [| discriminate].
  destruct (eq_str (d !! "llm_provider") "groq") eqn:E2;
    destruct (truthy (d !! "groq_api_key")) eqn:E3; simpl; try discriminate;
  destruct (eq_str (d !! "llm_provider") "openai" && negb (truthy (d !! "openai_api_key")));
    try discriminate;
  destruct (truthy (d !! "openai_api_key")) eqn:E4; simpl; try discriminate;
  destruct (d !! "openai_api_key") as [[] |]; simpl; try discriminate;
  match goal with |- context [String.prefix "sk-" ?s] =>
    destruct (String.prefix "sk-" s) eqn:Ep; try discriminate end;
  try (destruct (d !! "groq_api_key") as [[] |]; simpl; try discriminate;
       match goal with |- context [String.prefix "gsk_" ?g] =>
         destruct (String.prefix "gsk_" g) eqn:Eg; try discriminate end);
  intros _; (split; [reflexivity |]); (split; [eauto |]);
  split; intros; try discriminate; eauto.
Qed.

(** The validator raises (AttributeError on [startswith]) only when the
    OpenAI key or the Groq key is a truthy value that is not a string. *)
Lemma validate_setup_data_raises (d : Config) :
  validate_setup_data d = None ->
  (truthy (d !! "openai_api_key") = true /\ forall s, d !! "openai_api_key" <> Some (JStr s)) \/
  (truthy (d !! "groq_api_key") = true /\ forall s, d !! "groq_api_key" <> Some (JStr s)).
Proof.
  intros H. unfold validate_setup_data in H.
  remember (d !! "llm_provider") as p. remember (d !! "openai_api_key") as o.
  remember (d !! "groq_api_key") as g.
  destruct o as [[] |], g as [[] |]; simpl in *;
    repeat (case_match; simpl in * ); try discriminate;
    first [ left; split; [first [done | apply negb_false_iff; assumption] | intros ? Hd; discriminate]
          | right; split; [first [done | apply negb_false_iff; assumption] | intros ? Hd; discriminate] ].
Qed.

(** A falsy value (empty string, [null], [false], [0], empty list or
    object) at one of the three keys the validator reads counts as if the
    key were missing. *)
Lemma validate_setup_data_falsy_is_missing (d : Config) (k : string) (v : JValue) :
  k = "llm_provider" \/ k = "groq_api_key" \/ k = "openai_api_key" ->
  truthy (Some v) = false ->
  validate_setup_data (<[k := v]> d) = validate_setup_data (delete k d).
Proof.
  intros Hk Hv.
  assert (Hs : forall lit, lit <> "" -> eq_str (Some v) lit = false).
  { intros lit Hl. destruct v; simpl in *; try reflexivity.
    apply negb_false_iff, String.eqb_eq in Hv. subst s.
    apply String.eqb_neq. congruence. }
  unfold validate_setup_data.
  destruct Hk as [-> | [-> | ->]];
    rewrite !lookup_insert_eq, ?lookup_insert_ne, ?lookup_delete_eq, ?lookup_delete_ne by done;
    rewrite Hv, ?Hs by done; reflexivity.
Qed.

Lemma validate_setup_data_falsy_is_missing_witness :
  validate_setup_data (<[ "groq_api_key" := JStr "" ]>
     (<[ "llm_provider" := JStr "openai" ]> {[ "openai_api_key" := JStr "sk-x" ]})) =
  validate_setup_data (delete "groq_api_key"
     (<[ "llm_provider" := JStr "openai" ]> {[ "openai_api_key" := JStr "sk-x" ]})).
Proof. apply validate_setup_data_falsy_is_missing; [right; left |]; reflexivity. Defined.

(** ** Properties of the Flask layer *)
Section AppProps.
Context `{Fernet} `{Json} (agent_starts : MovieAgentConfig -> bool).

Lemma initialize_fs_cache (st : AppSt) :
  fs (mgr (_initialize_agent_from_config agent_starts st)) = fs (mgr st) /\
  (forall k, cipher (mgr st) = Some k ->
     cipher (mgr (_initialize_agent_from_config agent_starts st)) = Some k).
Proof.
  unfold _initialize_agent_from_config.
  destruct (agent_app st); [auto |].
  destruct (configured (fs (mgr st))); simpl; [| auto].
  destruct (load_config (mgr st)) as [s1 r] eqn:Hl.
  destruct (load_config_fs_cache _ _ _ Hl) as [Hf Hc].
  assert (Hk : forall k, cipher (mgr st) = Some k -> cipher s1 = Some k)
    by (intros k E; destruct Hc as [-> | [E' _]]; congruence).
  destruct r as [[cd |] | e]; simpl; auto.
  destruct (set_provider_env cd (environ st)) as [env1 ok].
  destruct ok; simpl; [destruct (agent_starts (agent_config_of cd)) |]; simpl; auto.
Qed.

(** Starting the agent never creates, changes or removes a configuration
    file, and never drops a cached cipher. *)
Lemma initialize_keeps_files_and_cache (st : AppSt) :
  fs (mgr (_initialize_agent_from_config agent_starts st)) = fs (mgr st) /\
  (forall k, cipher (mgr st) = Some k ->
     cipher (mgr (_initialize_agent_from_config agent_starts st)) = Some k).
Proof. apply initialize_fs_cache. Qed.

(** Starting the agent never creates, changes or removes a configuration
    file; when the stored configuration cannot be loaded, no agent is
    started and the environment is left as it was. *)
Lemma initialize_agent_load_failure (st : AppSt) e :
  agent_app st = None -> configured (fs (mgr st)) = true ->
  snd (load_config (mgr st)) = Exc e ->
  let st' := _initialize_agent_from_config agent_starts st in
  agent_app st' = None /\ environ st' = environ st /\ fs (mgr st') = fs (mgr st).
Proof.
  intros Ha Hc Hl. simpl.
  split; [| split]; [| | apply initialize_fs_cache].
  all: unfold _initialize_agent_from_config; rewrite Ha, Hc; simpl;
       destruct (load_config (mgr st)) as [s1 r]; simpl in Hl; subst r; reflexivity.
Qed.

(** Whatever the provider and whatever [openai_llm_api_key] says, once the
    environment step succeeds [OPENAI_API_KEY] holds [openai_api_key]: the
    embeddings assignment comes last and overrides the LLM key. *)
Lemma provider_env_openai_key_wins (cd : Config) env env' s :
  cd !! "openai_api_key" = Some (JStr s) -> s <> "" ->
  set_provider_env cd env = (env', true) ->
  env' !! "OPENAI_API_KEY" = Some s.
Proof.
  intros Ho Hs. unfold set_provider_env.
  assert (Ht : truthy (cd !! "openai_api_key") = true)
    by (rewrite Ho; simpl; apply negb_true_iff, String.eqb_neq, Hs).
  rewrite Ht.
  destruct (if eq_str _ "groq" then _ else _) as [env1 ok1].
  destruct ok1; simpl; [| discriminate].
  rewrite Ho. simpl. destruct (has_nul s); intros E; [discriminate |].
  injection E as <-. apply lookup_insert_eq.
Qed.

(** [GROQ_API_KEY] is only written when the provider is [groq] or missing
    (a missing provider counts as [groq] here, while the agent itself is
    then configured with provider [openai]). *)
Lemma provider_env_groq_only (cd : Config) env :
  eq_str (Some (get_default cd "llm_provider" (JStr "groq"))) "groq" = false ->
  (set_provider_env cd env).1 !! "GROQ_API_KEY" = env !! "GROQ_API_KEY".
Proof.
  intros Hp. unfold set_provider_env. rewrite Hp.
  remember (cd !! "openai_llm_api_key") as o1. remember (cd !! "openai_api_key") as o2.
  destruct (eq_str _ "openai"), o1 as [[] |], o2 as [[] |]; simpl;
    repeat (case_match; simpl); simplify_eq;
    rewrite ?lookup_insert_ne by discriminate; reflexivity.
Qed.

(** A POST to [/setup] that the validator does not accept (no body, an
    empty object, a rejected or a raising validation) changes nothing: no
    file is written, no agent is started, the environment is untouched. *)
Lemma setup_post_rejected (body : option Config) (st : AppSt) :
  (forall d, body = Some d -> d <> ∅ -> validate_setup_data d <> Some (true, None)) ->
  (setup_post agent_starts body st).1 = st /\
  (setup_post agent_starts body st).2 <> JsonStatus 200 "Configuration saved".
Proof.
  intros Hb. destruct body as [d |]; simpl; [| split; [reflexivity | discriminate]].
  destruct (bool_decide (d = ∅)) eqn:Hd; [split; [reflexivity | discriminate] |].
  apply bool_decide_eq_false_1 in Hd.
  specialize (Hb d eq_refl Hd).
  destruct (validate_setup_data d) as [[[] m] |] eqn:Ev; simpl;
    try (split; [reflexivity | discriminate]).
  destruct m; [exfalso; clear Hb; unfold validate_setup_data in Ev;
               repeat case_match; discriminate | congruence].
Qed.

(** An accepted setup on a manager whose cache agrees with the disk and
    whose files can be written answers success and leaves the configuration
    on disk: a new manager loads exactly the posted data, and [/] renders
    the main page. *)
Lemma setup_post_saves (d : Config) (st : AppSt) :
  d <> ∅ -> validate_setup_data d = Some (true, None) ->
  coherent (mgr st) -> key_valid (mgr st) -> no_faults (fs (mgr st)) ->
  (setup_post agent_starts (Some d) st).2 = JsonStatus 200 "Configuration saved" /\
  snd (load_config (fresh (fs (mgr (setup_post agent_starts (Some d) st).1)))) = Ok (Some d) /\
  index (setup_post agent_starts (Some d) st).1 = RenderTemplate "index.html".
Proof.
  intros Hn Hv Hco Hkv Hnf.
  pose proof (save_then_fresh_load_coherent _ d Hco Hkv Hnf) as Hload.
  pose proof (save_configures_coherent _ d Hco Hkv Hnf) as Hconf.
  unfold setup_post. rewrite (bool_decide_eq_false_2 _ Hn), Hv.
  destruct (save_config d (mgr st)) as [s1 [u | e]] eqn:Hs.
  - simpl in Hload, Hconf.
    destruct (initialize_fs_cache (mkApp s1 (environ st) (agent_app st))) as [Hf _].
    simpl in Hf. unfold index. simpl. rewrite Hf, Hconf. auto.
  - destruct (save_config_coherent _ d Hco Hkv Hnf) as [Hs' _]. congruence.
Qed.

(** After a setup and a reset in the same process, a second accepted setup
    answers success but leaves the application unconfigured ([/] sends back
    to [/setup]) and keeps whatever agent the first setup started: the
    cached cipher makes [save_config] skip the key file. *)
Lemma setup_after_reset_unconfigured (d1 d2 : Config) env :
  d1 <> ∅ -> validate_setup_data d1 = Some (true, None) ->
  d2 <> ∅ -> validate_setup_data d2 = Some (true, None) ->
  let st1 := (setup_post agent_starts (Some d1) (mkApp (fresh empty_fs) env None)).1 in
  let st3 := setup_post agent_starts (Some d2) (reset_config st1).1 in
  st3.2 = JsonStatus 200 "Configuration saved" /\
  index st3.1 = Redirect "setup" /\
  agent_app st3.1 = agent_app st1.
Proof.
  intros Hn1 Hv1 Hn2 Hv2. cbv zeta.
  destruct (save_config_coherent (fresh empty_fs) d1) as [Hs _];
    [intros ? [=] | intros ? [=] | intros ? ?; reflexivity |].
  remember (setup_post agent_starts (Some d1) _) as p1 eqn:E1.
  unfold setup_post in E1. rewrite (bool_decide_eq_false_2 _ Hn1), Hv1 in E1.
  cbn [mgr environ agent_app] in E1. rewrite Hs in E1.
  simpl in E1. subst p1. simpl.
  set (st0 := mkApp _ env None).
  destruct (initialize_fs_cache st0) as [Hf Hc].
  specialize (Hc generate_key eq_refl).
  destruct (_initialize_agent_from_config agent_starts st0) as [[c f] env1 a1]; simpl in *.
  subst c f.
  unfold reset_config, delete_config, bind, exists_, unlink, ret, file_of, set_fs, set_file.
  simpl.
  unfold setup_post. rewrite (bool_decide_eq_false_2 _ Hn2), Hv2.
  unfold save_config, _get_cipher, bind, write, chmod_600, ret, set_fs, set_file. simpl.
  unfold _initialize_agent_from_config. simpl.
  destruct a1; simpl; auto.
Qed.



End AppProps.

Definition cd_two_openai_keys : Config :=
  <[ "llm_provider" := JStr "openai" ]> (<[ "openai_llm_api_key" := JStr "sk-llm" ]>
     {[ "openai_api_key" := JStr "sk-emb" ]}).

Lemma provider_env_openai_key_wins_witness :
  (set_provider_env cd_two_openai_keys ∅).1 !! "OPENAI_API_KEY" = Some "sk-emb".
Proof.
  apply (provider_env_openai_key_wins cd_two_openai_keys ∅ _ "sk-emb");
    [vm_compute; reflexivity | discriminate | vm_compute; reflexivity].
Defined.

Lemma provider_env_groq_only_witness :
  (set_provider_env (<[ "llm_provider" := JStr "openai" ]> {[ "groq_api_key" := JStr "gsk_x" ]}) ∅).1
    !! "GROQ_API_KEY" = None.
Proof. rewrite (provider_env_groq_only _ ∅); [reflexivity | vm_compute; reflexivity]. Defined.


(** ** Properties of the poster history *)

(** The history keeps the last three posters: its length is
    [min 3 (old length + 1)] and it is a suffix of the old history followed
    by the new poster. *)
Lemma poster_history_push_last_three {A} (h : option (list A)) (x : A) :
  length (poster_history_push h x) = Nat.min 3 (S (length (default [] h))) /\
  exists pre, app pre (poster_history_push h x) = app (default [] h) [x].
Proof.
  unfold poster_history_push. set (l := app (default [] h) [x]).
  assert (Hl : length l = S (length (default [] h)))
    by (subst l; rewrite length_app; simpl; lia).
  destruct (Nat.ltb_spec 3 (length l)).
  - split; [rewrite length_drop; lia | exists (take (length l - 3) l); apply take_drop].
  - split; [lia | exists []; reflexivity].
Qed.

(** ** Properties of ServicePathResolver *)

Lemma resolve_cache_eq pe pr oe ab base c :
  (resolve pe pr oe ab base c).2 = (resolve pe pr oe ab base c).1 /\
  (forall p, c = Some p -> resolve pe pr oe ab base c = (Some p, Some p)) /\
  ((resolve pe pr oe ab base c).1 = None -> c = None).
Proof.
  destruct c as [p |]; simpl; [split; [| split]; congruence |].
  split; [| split; [discriminate | reflexivity]].
  unfold resolve_fallback. repeat (case_match; simpl); congruence.
Qed.

(** What [resolve()] returns is what it caches; a failed resolution caches
    nothing, so only a resolver that has found nothing yet can fail. *)
Lemma resolve_result_is_cache pe pr oe ab base c :
  (resolve pe pr oe ab base c).2 = (resolve pe pr oe ab base c).1 /\
  ((resolve pe pr oe ab base c).1 = None -> c = None).
Proof.
  destruct (resolve_cache_eq pe pr oe ab base c) as (H1 & _ & H3). auto.
Qed.

(** Once a path is resolved, every later call returns it without looking
    at the file system again (here: whatever the primitives answer). *)
Lemma resolve_sticky pe pr oe ab pe' pr' oe' ab' base c p :
  (resolve pe pr oe ab base c).1 = Some p ->
  resolve pe' pr' oe' ab' base (resolve pe pr oe ab base c).2 = (Some p, Some p).
Proof.
  intros Hp. destruct (resolve_cache_eq pe pr oe ab base c) as (H1 & _ & _).
  rewrite H1, Hp. reflexivity.
Qed.

(** [add_to_sys_path()] either prepends the resolved path (and caches it)
    or, when nothing is found, leaves [sys.path] and the cache empty-handed
    as they were. *)
Lemma add_to_sys_path_outcomes pe pr oe ab base c sp :
  (exists p, add_to_sys_path pe pr oe ab base c sp = (true, Some p, p :: sp)) \/
  (c = None /\ add_to_sys_path pe pr oe ab base c sp = (false, None, sp)).
Proof.
  destruct (resolve_cache_eq pe pr oe ab base c) as (H1 & _ & H3).
  unfold add_to_sys_path.
  destruct (resolve pe pr oe ab base c) as [[p |] c'] eqn:E; simpl in *; subst c'.
  - left. eauto.
  - right. auto.
Qed.

(** A second [add_to_sys_path()] after a successful one inserts the same
    path again: [sys.path] gets a duplicate entry per call. *)
Lemma add_to_sys_path_repeats pe pr oe ab pe' pr' oe' ab' base c sp c1 sp1 :
  add_to_sys_path pe pr oe ab base c sp = (true, c1, sp1) ->
  exists p, c1 = Some p /\ sp1 = p :: sp /\
    add_to_sys_path pe' pr' oe' ab' base c1 sp1 = (true, Some p, p :: p :: sp).
Proof.
  destruct (resolve_cache_eq pe pr oe ab base c) as (H1 & _ & _).
  unfold add_to_sys_path at 1.
  destruct (resolve pe pr oe ab base c) as [[p |] c'] eqn:E; simpl in *; subst c';
    intros Ht; [| discriminate].
  injection Ht as <- <-. exists p. split; [reflexivity | split; [reflexivity |]].
  unfold add_to_sys_path. simpl. reflexivity.
Qed.

(** ** Concrete runs of the added properties *)

Definition cfg_ok : Config :=
  <[ "llm_provider" := JStr "openai" ]> {[ "openai_api_key" := JStr "sk-x" ]}.

Definition s_stored : St :=
  mkSt None (mkFS (Some (encrypt [Byte.x2a] (dumps cfg_a))) (Some [Byte.x2a]) no_fault).

Definition app_fresh : AppSt := mkApp (fresh empty_fs) ∅ None.

Definition agent_ok : MovieAgentConfig -> bool := fun _ => true.

Lemma load_config_frame_witness :
  fs (fst (load_config s_tampered)) = fs s_tampered /\
  (cipher (fst (load_config s_tampered)) = cipher s_tampered \/
   (cipher s_tampered = None /\
    cipher (fst (load_config s_tampered)) = master_key_file (fs s_tampered))).
Proof.
  apply (load_config_frame s_tampered _ (snd (load_config s_tampered))).
  vm_compute. reflexivity.
Defined.

Lemma save_config_keeps_key_file_witness :
  master_key_file (fs (fst (save_config cfg_ok s_stored))) = Some [Byte.x2a].
Proof.
  apply (save_config_keeps_key_file cfg_ok s_stored _ (snd (save_config cfg_ok s_stored)));
    vm_compute; reflexivity.
Defined.

Lemma save_save_load_coherent_witness :
  snd ((save_config cfg_a ;;; save_config cfg_ok ;;; load_config) (fresh empty_fs)) =
    Ok (Some cfg_ok).
Proof.
  apply save_save_load_coherent; [intros ? [=] | intros ? [=] | intros ? ?; reflexivity].
Defined.


Lemma update_config_merges_witness :
  snd ((update_config {[ "b" := JInt 2 ]} ;;; load_config) s_stored) =
    Ok (Some ({[ "b" := JInt 2 ]} ∪ cfg_a)) /\
  (forall x, ({[ "b" := JInt 2 ]} ∪ cfg_a) !! x =
     match ({[ "b" := JInt 2 ]} : Config) !! x with Some v => Some v | None => cfg_a !! x end).
Proof.
  apply (update_config_merges s_stored [Byte.x2a]);
    [reflexivity | reflexivity | reflexivity | left; reflexivity | intros ? ?; reflexivity].
Defined.

Lemma delete_config_idempotent_witness :
  (delete_config ;;; delete_config) s_stored = delete_config s_stored.
Proof. apply delete_config_idempotent. intros ? ?; reflexivity. Defined.

Lemma validate_setup_data_accepts_witness :
  truthy (cfg_ok !! "llm_provider") = true /\
  (exists s, cfg_ok !! "openai_api_key" = Some (JStr s) /\ String.prefix "sk-" s = true) /\
  (truthy (cfg_ok !! "groq_api_key") = true ->
     exists s, cfg_ok !! "groq_api_key" = Some (JStr s) /\ String.prefix "gsk_" s = true) /\
  (eq_str (cfg_ok !! "llm_provider") "groq" = true -> truthy (cfg_ok !! "groq_api_key") = true).
Proof. apply validate_setup_data_accepts. vm_compute. reflexivity. Defined.

Lemma validate_setup_data_raises_witness :
  let d : Config := <[ "llm_provider" := JStr "openai" ]> {[ "openai_api_key" := JInt 5 ]} in
  (truthy (d !! "openai_api_key") = true /\ forall s, d !! "openai_api_key" <> Some (JStr s)) \/
  (truthy (d !! "groq_api_key") = true /\ forall s, d !! "groq_api_key" <> Some (JStr s)).
Proof. apply validate_setup_data_raises. vm_compute. reflexivity. Defined.

Lemma initialize_agent_load_failure_witness :
  let st' := _initialize_agent_from_config agent_ok (mkApp s_tampered ∅ None) in
  agent_app st' = None /\ environ st' = ∅ /\ fs (mgr st') = fs s_tampered.
Proof.
  apply (initialize_agent_load_failure agent_ok (mkApp s_tampered ∅ None) LoadFailed);
    vm_compute; reflexivity.
Defined.

Lemma setup_post_rejected_witness :
  (setup_post agent_ok (Some {[ "llm_provider" := JStr "groq" ]}) app_fresh).1 = app_fresh /\
  (setup_post agent_ok (Some {[ "llm_provider" := JStr "groq" ]}) app_fresh).2 <>
    JsonStatus 200 "Configuration saved".
Proof.
  apply setup_post_rejected. intros d Hd _. injection Hd as <-. vm_compute. discriminate.
Defined.

Lemma setup_post_saves_witness :
  (setup_post agent_ok (Some cfg_ok) app_fresh).2 = JsonStatus 200 "Configuration saved" /\
  snd (load_config (fresh (fs (mgr (setup_post agent_ok (Some cfg_ok) app_fresh).1)))) =
    Ok (Some cfg_ok) /\
  index (setup_post agent_ok (Some cfg_ok) app_fresh).1 = RenderTemplate "index.html".
Proof.
  apply setup_post_saves;
    [intros E; pose proof (f_equal (lookup "llm_provider") E) as E'; vm_compute in E';
       discriminate
    | vm_compute; reflexivity | intros ? [=] | intros ? [=] | intros ? ?; reflexivity].
Defined.

Lemma setup_after_reset_unconfigured_witness :
  let st1 := (setup_post agent_ok (Some cfg_ok) (mkApp (fresh empty_fs) ∅ None)).1 in
  let st3 := setup_post agent_ok (Some cfg_ok) (reset_config st1).1 in
  st3.2 = JsonStatus 200 "Configuration saved" /\
  index st3.1 = Redirect "setup" /\
  agent_app st3.1 = agent_app st1.
Proof.
  apply setup_after_reset_unconfigured;
    try (vm_compute; reflexivity);
    intros E; pose proof (f_equal (lookup "llm_provider") E) as E'; vm_compute in E';
    discriminate.
Defined.



Definition demo_base : P := ["home"; "app"; "app.py"].
Definition demo_service : P := ["home"; "movie-agent-service"; "src"].
Definition demo_exists (p : P) : option bool := Some (bool_decide (p = demo_service)).

Lemma resolve_sticky_witness :
  resolve (fun _ => None) (fun _ => None) (fun _ => false) (fun p => p) demo_base
    (resolve demo_exists Some (fun _ => false) (fun p => p) demo_base None).2 =
  (Some demo_service, Some demo_service).
Proof. apply resolve_sticky. vm_compute. reflexivity. Defined.

Lemma add_to_sys_path_repeats_witness :
  exists p, Some demo_service = Some p /\ [demo_service] = p :: [] /\
    add_to_sys_path (fun _ => None) (fun _ => None) (fun _ => false) (fun p => p) demo_base
      (Some demo_service) [demo_service] = (true, Some p, p :: p :: []).
Proof.
  apply (add_to_sys_path_repeats demo_exists Some (fun _ => false) (fun p => p) _ _ _ _
           demo_base None []).
  vm_compute. reflexivity.
Defined.
